(** * A shallow embedding of [src/frontend/main.js] (express-challenge).

    The browser client streams face crops over a WebSocket and shows the
    emotion returned by the server.  This development embeds:
    - the region computation of the [onResults] callback
      ([setupFaceDetectionCallback], lines 134-160);
    - the rate-limited send path of the same callback (lines 174-195);
    - [connectWebSocket] and its [onopen] / [onclose] handlers (lines 17-47),
      as a state machine over the module-scope variables;
    - the [onmessage] handler (lines 54-69) and the label overlay
      (lines 128-132).

    JavaScript numbers are modelled as [jsnum]: NaN, the two infinities, or a
    finite value kept exactly as a rational.  The products of the region
    computation are kept exact; the product printed by the message handler
    is rounded to binary64 ([round_double]), as is a number [JSON.parse]
    reads. *)

From Stdlib Require Import ZArith QArith Qround Qabs List String Ascii Bool Lia.
Import ListNotations.
Open Scope Z_scope.

(** ** JavaScript numbers *)

Inductive jsnum : Type :=
| NaN
| PInf
| NInf
| Fin (q : Q).

(** [Number.isFinite] *)
Definition isFinite (n : jsnum) : bool :=
  match n with Fin _ => true | _ => false end.

(** [a * b] on numbers (IEEE special cases; finite products kept exact). *)
Definition num_mul (a b : jsnum) : jsnum :=
  match a, b with
  | NaN, _ | _, NaN => NaN
  | Fin x, Fin y => Fin (x * y)%Q
  | Fin x, PInf | PInf, Fin x =>
      if Qeq_bool x 0 then NaN else if Qlt_le_dec x 0 then NInf else PInf
  | Fin x, NInf | NInf, Fin x =>
      if Qeq_bool x 0 then NaN else if Qlt_le_dec x 0 then PInf else NInf
  | PInf, PInf | NInf, NInf => PInf
  | PInf, NInf | NInf, PInf => NInf
  end.

Definition num_of_Z (z : Z) : jsnum := Fin (inject_Z z).

(** A finite value in lowest terms, to compare results by value. *)
Definition num_norm (n : jsnum) : jsnum :=
  match n with Fin q => Fin (Qred q) | _ => n end.

(** Round a real to the nearest binary64 value, ties to even; a result
    beyond the largest finite double is an infinity and a tiny one is zero
    (the sign of a zero is not kept).  [e] is the exponent of the last
    mantissa bit: [2^52 <= |q| / 2^e < 2^53], or [e = -1074] (subnormals). *)
Definition round_double (q : Q) : jsnum :=
  let n := Qnum q in
  let d := Zpos (Qden q) in
  if Z.eqb n 0 then Fin 0 else
  let a := Z.abs n in
  let e0 := Z.log2 a - Z.log2 d - 52 in
  let e1 := if Z.leb (2 ^ 52 * d * 2 ^ Z.max 0 e0) (a * 2 ^ Z.max 0 (- e0))
            then e0 else e0 - 1 in
  let e := Z.max e1 (-1074) in
  let num := a * 2 ^ Z.max 0 (- e) in
  let den := d * 2 ^ Z.max 0 e in
  let m := num / den in
  let r := num mod den in
  let m := if Z.ltb den (2 * r) then m + 1
           else if Z.eqb (2 * r) den then m + m mod 2 else m in
  let '(m, e) := if Z.eqb m (2 ^ 53) then (2 ^ 52, e + 1) else (m, e) in
  if Z.ltb 971 e then (if Z.ltb n 0 then NInf else PInf)
  else
    let m := if Z.ltb n 0 then - m else m in
    if Z.leb 0 e then Fin (inject_Z (m * 2 ^ e)) else Fin (m # Z.to_pos (2 ^ (- e))).

(** [a * b] as the engine computes it: the exact product, rounded. *)
Definition js_mul (a b : jsnum) : jsnum :=
  match num_mul a b with Fin q => round_double q | r => r end.

(** ** Region extraction ([onResults], lines 134-160) *)

(** A MediaPipe bounding box, in coordinates normalised to the frame. *)
Record bbox : Type := mkBBox {
  xMin : jsnum;
  yMin : jsnum;
  width : jsnum;
  height : jsnum
}.

(** The raw rectangle (lines 139-142).  Note that the origin is taken from
    [box.width] / [box.height], as the source does. *)
Record raw_rect : Type := mkRaw { rawX : jsnum; rawY : jsnum; rawW : jsnum; rawH : jsnum }.

Definition compute_raw (canvas_width canvas_height : Z) (box : bbox) : raw_rect :=
  {| rawX := num_mul (width box) (num_of_Z canvas_width);
     rawY := num_mul (height box) (num_of_Z canvas_height);
     rawW := num_mul (width box) (num_of_Z canvas_width);
     rawH := num_mul (height box) (num_of_Z canvas_height) |}.

(** The integer pixel rectangle passed to [getImageData]. *)
Record region : Type := mkRegion { rx : Z; ry : Z; rw : Z; rh : Z }.

(** Lines 152-156: round and clamp, on finite raw values. *)
Definition clamp (canvas_width canvas_height : Z) (rawX rawY rawW rawH : Q) : region :=
  let x := Z.max 0 (Qfloor rawX) in
  let y := Z.max 0 (Qfloor rawY) in
  let w := Z.max 1 (Z.min (canvas_width - x) (Qfloor rawW)) in
  let h := Z.max 1 (Z.min (canvas_height - y) (Qfloor rawH)) in
  {| rx := x; ry := y; rw := w; rh := h |}.

(** Line 160: [if (w <= 0 || h <= 0) return;] *)
Definition degenerate (r : region) : bool := (rw r <=? 0) || (rh r <=? 0).

(** Lines 134-160: [None] is every early exit ("no region"), [Some r] the
    rectangle read back with [getImageData]. *)
Definition extract_region (canvas_width canvas_height : Z) (detections : list bbox)
  : option region :=
  match detections with
  | [] => None
  | box :: _ =>
      match compute_raw canvas_width canvas_height box with
      | {| rawX := Fin x; rawY := Fin y; rawW := Fin w; rawH := Fin h |} =>
          let r := clamp canvas_width canvas_height x y w h in
          if degenerate r then None else Some r
      | _ => None
      end
  end.

(** The rectangle the spec asks for: origin from [xMin] / [yMin]. *)
Definition spec_raw_origin (canvas_width canvas_height : Z) (box : bbox) : jsnum * jsnum :=
  (num_mul (xMin box) (num_of_Z canvas_width), num_mul (yMin box) (num_of_Z canvas_height)).

(** ** Module-scope state of the client (lines 7-15) *)

(** [WebSocket.readyState] *)
Inductive ready_state : Type := CONNECTING | OPEN | CLOSING | CLOSED.

(** The module-scope variables, plus three ghost logs: [timers] holds the
    delays of the pending [setTimeout(connectWebSocket, delay)] calls (oldest
    first), [scheduled] every delay ever scheduled (newest first), [links] the
    number of [new WebSocket(...)] calls, and [sent] the [now] of every frame
    handed to [socket.send] without an exception (newest first). *)
Record app : Type := mkApp {
  socket : option ready_state;   (* [socket], [None] for [null] *)
  reconnectAttempt : nat;
  timers : list Z;
  scheduled : list Z;
  links : nat;
  lastSendTime : Z;
  sent : list Z;
  lastEmotion : string
}.

Definition maxReconnectAttempts : nat := 5.
Definition baseReconnectDelay : Z := 1000.
Definition sendInterval : Z := 200.

Definition init : app :=
  {| socket := None; reconnectAttempt := 0; timers := []; scheduled := [];
     links := 0; lastSendTime := 0; sent := []; lastEmotion := "" |}.

Definition set_socket (s : option ready_state) (st : app) : app :=
  {| socket := s; reconnectAttempt := reconnectAttempt st; timers := timers st;
     scheduled := scheduled st; links := links st; lastSendTime := lastSendTime st;
     sent := sent st; lastEmotion := lastEmotion st |}.

Definition set_attempt (n : nat) (st : app) : app :=
  {| socket := socket st; reconnectAttempt := n; timers := timers st;
     scheduled := scheduled st; links := links st; lastSendTime := lastSendTime st;
     sent := sent st; lastEmotion := lastEmotion st |}.

Definition set_lastEmotion (e : string) (st : app) : app :=
  {| socket := socket st; reconnectAttempt := reconnectAttempt st; timers := timers st;
     scheduled := scheduled st; links := links st; lastSendTime := lastSendTime st;
     sent := sent st; lastEmotion := e |}.

(** ** [connectWebSocket] (lines 17-74) *)

(** Line 18 returns early on a connecting or open socket; otherwise line 23
    replaces [socket] by a fresh, connecting one.  The constructor is given
    a fixed, well-formed URL, so the [catch] of line 70 is not reached. *)
Definition connectWebSocket (st : app) : app :=
  match socket st with
  | Some CONNECTING | Some OPEN => st
  | _ =>
      {| socket := Some CONNECTING; reconnectAttempt := reconnectAttempt st;
         timers := timers st; scheduled := scheduled st; links := S (links st);
         lastSendTime := lastSendTime st; sent := sent st; lastEmotion := lastEmotion st |}
  end.

(** [socket.onopen] (lines 25-29). *)
Definition on_open (st : app) : app := set_attempt 0 (set_socket (Some OPEN) st).

(** Line 35: [Math.min(1000 * Math.pow(2, reconnectAttempt), 10000)]. *)
Definition reconnect_delay (attempt : nat) : Z :=
  Z.min (baseReconnectDelay * 2 ^ Z.of_nat attempt) 10000.

(** [socket.onclose] (lines 31-47). *)
Definition onclose_handler (st : app) : app :=
  if (reconnectAttempt st <? maxReconnectAttempts)%nat then
    let delay := reconnect_delay (reconnectAttempt st) in
    {| socket := socket st; reconnectAttempt := S (reconnectAttempt st);
       timers := timers st ++ [delay]; scheduled := delay :: scheduled st;
       links := links st; lastSendTime := lastSendTime st; sent := sent st;
       lastEmotion := lastEmotion st |}
  else st.

(** A pending [setTimeout(connectWebSocket, delay)] fires. *)
Definition fire_timer (st : app) : app :=
  match timers st with
  | [] => st
  | _ :: rest =>
      connectWebSocket
        {| socket := socket st; reconnectAttempt := reconnectAttempt st; timers := rest;
           scheduled := scheduled st; links := links st; lastSendTime := lastSendTime st;
           sent := sent st; lastEmotion := lastEmotion st |}
  end.

(** ** The rate-limited send path ([onResults], lines 174-195) *)

(** A small exception monad for the [try] / [catch] blocks. *)
Inductive res (A : Type) : Type :=
| Ok (a : A)
| Exn (msg : string).
Arguments Ok {A} a.
Arguments Exn {A} msg.

(** [socket.send(...)]: [throws] says whether the browser raises. *)
Definition socket_send (throws : bool) : res unit :=
  if throws then Exn "InvalidStateError" else Ok tt.

(** [socket.close()] moves an open socket to [CLOSING]. *)
Definition socket_close (st : app) : app :=
  match socket st with
  | Some CLOSED | None => st
  | _ => set_socket (Some CLOSING) st
  end.

Inductive outcome : Type := Sent | Throttled | SendFailed | NotOpen.

Definition send_frame (st : app) (now : Z) (throws : bool) : res (app * outcome) :=
  match socket st with
  | Some OPEN =>
      if now - lastSendTime st >=? sendInterval then
        match socket_send throws with
        | Ok _ =>
            Ok ({| socket := socket st; reconnectAttempt := reconnectAttempt st;
                   timers := timers st; scheduled := scheduled st; links := links st;
                   lastSendTime := now; sent := now :: sent st;
                   lastEmotion := lastEmotion st |}, Sent)
        | Exn _ => Ok (connectWebSocket (socket_close st), SendFailed)
        end
      else Ok (st, Throttled)
  | None | Some CLOSED => Ok (connectWebSocket st, NotOpen)
  | _ => Ok (st, NotOpen)
  end.

(** The whole callback for one detection result (lines 124-204).  Drawing
    the frame and the overlay leave the modelled state unchanged; an
    exception of the send path would be caught at line 196. *)
Definition on_results (st : app) (canvas_width canvas_height : Z)
    (detections : list bbox) (now : Z) (throws : bool) : app :=
  match extract_region canvas_width canvas_height detections with
  | None => st
  | Some _ =>
      match send_frame st now throws with
      | Ok (st', _) => st'
      | Exn _ => st
      end
  end.

(** ** Traces of connection and detection events *)

Inductive event : Type :=
| EConnect                      (* a direct call of [connectWebSocket] *)
| EOpen                         (* the current socket opens *)
| EClose                        (* the current socket closes *)
| EStaleClose                   (* [onclose] of a socket already replaced *)
| ETimer                        (* the oldest pending reconnect timer fires *)
| EDetect (canvas_width canvas_height : Z) (detections : list bbox) (now : Z) (throws : bool).

Definition step (st : app) (e : event) : app :=
  match e with
  | EConnect => connectWebSocket st
  | EOpen => on_open st
  | EClose => onclose_handler (set_socket (Some CLOSED) st)
  | EStaleClose => onclose_handler st
  | ETimer => fire_timer st
  | EDetect w h d now throws => on_results st w h d now throws
  end.

Definition run (st : app) (evs : list event) : app := fold_left step evs st.

Definition is_open_event (e : event) : bool :=
  match e with EOpen => true | _ => false end.

Definition is_close_event (e : event) : bool :=
  match e with EClose | EStaleClose => true | _ => false end.

Definition count_closes (evs : list event) : nat := List.length (filter is_close_event evs).

(** ** Inbound messages ([socket.onmessage], lines 54-69) *)

Local Set Warnings "-register-all".

(** The values [JSON.parse] can return ([JUndef] only arises from property
    reads).  An object keeps its members in source order; a number holds a
    binary64 value (see [json_number]).  No parsed value is callable. *)
Inductive jval : Type :=
| JUndef
| JNull
| JBool (b : bool)
| JNum (n : jsnum)
| JStr (s : string)
| JArr (l : list jval)
| JObj (members : list (string * jval)).

(** [JSON.parse] keeps the last of duplicate keys. *)
Definition lookup_member (members : list (string * jval)) (k : string) : option jval :=
  fold_left (fun acc kv => if String.eqb k (fst kv) then Some (snd kv) else acc) members None.

(** [v[k]] for the keys the handler reads ([error], [emotion], [confidence]):
    no prototype of a JSON value defines them and they are neither array
    indices nor [length], so only an object's own members are found; a read
    on [null] or [undefined] raises a [TypeError]. *)
Definition get_prop (v : jval) (k : string) : res jval :=
  match v with
  | JUndef | JNull => Exn "TypeError"
  | JObj members =>
      match lookup_member members k with Some x => Ok x | None => Ok JUndef end
  | _ => Ok JUndef
  end.

(** ToBoolean, as used by [if (data.error)]. *)
Definition truthy (v : jval) : bool :=
  match v with
  | JUndef | JNull => false
  | JBool b => b
  | JNum NaN => false
  | JNum (Fin q) => negb (Qeq_bool q 0)
  | JNum _ => true
  | JStr s => negb (String.eqb s "")
  | JArr _ | JObj _ => true
  end.

(** Decimal digits of a non-negative integer. *)
Definition digit (d : Z) : ascii := ascii_of_nat (48 + Z.to_nat d).

Fixpoint dec_aux (fuel : nat) (k : Z) (acc : string) : string :=
  match fuel with
  | O => acc
  | S f =>
      let acc' := String (digit (k mod 10)) acc in
      if k <? 10 then acc' else dec_aux f (k / 10) acc'
  end.

Definition dec_string (k : Z) : string :=
  dec_aux (S (Pos.size_nat (Z.to_pos k))) k "".

(** A JSON number literal, as [JSON.parse] reads it: the nearest double. *)
Definition json_number (q : Q) : jval := JNum (round_double q).

(** Whether an object has an own member [toString]. *)
Definition has_own_toString (members : list (string * jval)) : bool :=
  match lookup_member members "toString" with Some _ => true | None => false end.

Section Inbound.

Local Open Scope string_scope.

(** Number::toString on a finite value, and StringToNumber: host
    primitives, left abstract. *)
Variable number_to_string : Q -> string.
Variable string_to_number : string -> jsnum.

Definition num_to_string (n : jsnum) : string :=
  match n with
  | NaN => "NaN"
  | PInf => "Infinity"
  | NInf => "-Infinity"
  | Fin q => number_to_string q
  end.

(** ToString, as used by a template literal.  An object goes through
    OrdinaryToPrimitive with hint string: an own [toString] member shadows
    [Object.prototype.toString] and is not callable, the [valueOf] found
    next is not callable or returns the object itself, so a [TypeError] is
    raised; otherwise the result is ["[object Object]"].  An array is
    joined with [","] ([Array.prototype.toString] calls [join]), [null] and
    [undefined] elements giving the empty string; the first element that
    raises makes the whole conversion raise. *)
Fixpoint to_string (v : jval) : res string :=
  match v with
  | JUndef => Ok "undefined"
  | JNull => Ok "null"
  | JBool b => Ok (if b then "true" else "false")
  | JNum n => Ok (num_to_string n)
  | JStr s => Ok s
  | JArr l =>
      (fix join (l : list jval) : res string :=
         match l with
         | [] => Ok ""
         | x :: t =>
             match (match x with JUndef | JNull => Ok "" | _ => to_string x end) with
             | Exn m => Exn m
             | Ok ex =>
                 match t with
                 | [] => Ok ex
                 | _ => match join t with Ok r => Ok (ex ++ "," ++ r) | Exn m => Exn m end
                 end
             end
         end) l
  | JObj members =>
      if has_own_toString members then Exn "TypeError" else Ok "[object Object]"
  end.

(** ToNumber, as used by [data.confidence * 100].  An object or array goes
    through OrdinaryToPrimitive with hint number: [valueOf] (inherited, or an
    own non-callable member) yields no primitive, so [toString] decides: an
    own [toString] member raises, [Object.prototype.toString] gives
    ["[object Object]"] ([NaN]) and an array is joined as by [to_string]. *)
Definition to_number (v : jval) : res jsnum :=
  match v with
  | JUndef => Ok NaN
  | JNull => Ok (Fin 0)
  | JBool b => Ok (Fin (if b then 1 else 0)%Q)
  | JNum n => Ok n
  | JStr s => Ok (string_to_number s)
  | JArr _ =>
      match to_string v with Ok s => Ok (string_to_number s) | Exn m => Exn m end
  | JObj members => if has_own_toString members then Exn "TypeError" else Ok NaN
  end.

(** [Number.prototype.toFixed(1)]: the integer [n] with [n / 10 - x] closest
    to zero (the larger on a tie), [x] being the exact value of the double,
    printed with one decimal. *)
Definition to_fixed1 (n : jsnum) : string :=
  match n with
  | Fin q =>
      if Qle_bool (inject_Z (10 ^ 21)) (Qabs q) then number_to_string q
      else
        let s := if Qlt_le_dec q 0 then "-" else "" in
        let k := Qfloor (Qabs q * 10 + (1 # 2)) in
        let m := dec_string k in
        let m := if Z.ltb k 10 then ("0" ++ m)%string else m in
        let len := String.length m in
        (s ++ substring 0 (Nat.pred len) m ++ "." ++ substring (Nat.pred len) 1 m)%string
  | _ => num_to_string n
  end.

(** Line 62: [`${data.emotion} (${(data.confidence * 100).toFixed(1)}%)`];
    the substitutions are converted left to right, and a raising conversion
    aborts the template. *)
Definition emotion_label (emotion confidence : jval) : res string :=
  match to_string emotion with
  | Exn m => Exn m
  | Ok e =>
      match to_number confidence with
      | Exn m => Exn m
      | Ok c => Ok (e ++ " (" ++ to_fixed1 (js_mul c (Fin 100)) ++ "%)")
      end
  end.

(** Lines 56-68; [parsed] is [None] when [JSON.parse] raises.  Every
    exception of the [try] block lands in the [catch] of line 66, which only
    logs.  The [error] branch writes [resultDiv] only. *)
Definition on_message (st : app) (parsed : option jval) : app :=
  match parsed with
  | None => st
  | Some data =>
      match get_prop data "error" with
      | Exn _ => st
      | Ok err =>
          if truthy err then st
          else
            match get_prop data "emotion", get_prop data "confidence" with
            | Ok e, Ok c =>
                match emotion_label e c with
                | Ok label => set_lastEmotion label st
                | Exn _ => st
                end
            | _, _ => st
            end
      end
  end.

End Inbound.

(** The values ToString and ToNumber convert without raising: no object
    with an own [toString] member, at the top or (for an array) inside. *)
Fixpoint convertible (v : jval) : bool :=
  match v with
  | JArr l =>
      (fix all (l : list jval) : bool :=
         match l with [] => true | x :: t => convertible x && all t end) l
  | JObj members => negb (has_own_toString members)
  | _ => true
  end.

(** A member read that yields [undefined] where the read would raise. *)
Definition field (v : jval) (k : string) : jval :=
  match get_prop v k with Ok x => x | Exn _ => JUndef end.

(** The own members of a parsed value, as the claim words "its field". *)
Definition own_field (v : jval) (k : string) : option jval :=
  match v with JObj members => lookup_member members k | _ => None end.

(** ** Drawing the label ([onResults], lines 128-132) *)

(** [if (lastEmotion) ctx.fillText(lastEmotion, 10, 40)]: the text drawn
    over each frame, if any. *)
Definition overlay (st : app) : option string :=
  if String.eqb (lastEmotion st) "" then None else Some (lastEmotion st).

(** Stand-ins for the host primitives, used by the concrete runs below:
    integral values print in decimal, and decimal digit strings parse. *)
Definition int_number_to_string (q : Q) : string :=
  let n := Qnum q in
  if Z.ltb n 0 then String "-" (dec_string (- n)) else dec_string n.

Fixpoint parse_digits (s : string) (acc : Z) : option Z :=
  match s with
  | EmptyString => Some acc
  | String c rest =>
      let d := Z.of_nat (nat_of_ascii c) - 48 in
      if (0 <=? d) && (d <? 10) then parse_digits rest (acc * 10 + d) else None
  end.

Definition digits_string_to_number (s : string) : jsnum :=
  match parse_digits s 0 with Some z => Fin (inject_Z z) | None => NaN end.

(** ** Concrete runs *)

Definition face_box : bbox := mkBBox (Fin (1 # 4)) (Fin (1 # 4)) (Fin (1 # 2)) (Fin (1 # 2)).
Definition full_width_box : bbox := mkBBox (Fin 0) (Fin 0) (Fin 1) (Fin (1 # 2)).

Definition five_closures : list event :=
  [EConnect; EClose; ETimer; EClose; ETimer; EClose; ETimer; EClose; ETimer; EClose].

(** The delays of a full retry budget, in scheduling order. *)
Definition backoff_delays : list Z := [1000; 2000; 4000; 8000; 10000].

Definition six_closures_after_open : list event :=
  [EClose; ETimer; EClose; EClose; EStaleClose; ETimer; EClose; EClose].

Example clamp_example :
  clamp 640 480 (-10) 500 100 50 = {| rx := 0; ry := 500; rw := 100; rh := 1 |}.
Proof. reflexivity. Qed.

(** Induction on JSON values, with a hypothesis for each array element. *)
Definition jval_ind' (P : jval -> Prop)
    (HU : P JUndef) (HN : P JNull) (HB : forall b, P (JBool b))
    (HNum : forall n, P (JNum n)) (HS : forall s, P (JStr s))
    (HA : forall l, Forall P l -> P (JArr l))
    (HO : forall ms, P (JObj ms)) : forall v, P v :=
  fix F (v : jval) : P v :=
    match v return P v with
    | JUndef => HU
    | JNull => HN
    | JBool b => HB b
    | JNum n => HNum n
    | JStr s => HS s
    | JArr l =>
        HA l ((fix G (l : list jval) : Forall P l :=
                 match l return Forall P l with
                 | [] => Forall_nil P
                 | x :: t => Forall_cons x (F x) (G t)
                 end) l)
    | JObj ms => HO ms
    end.

Definition happy_with_toString : jval :=
  JObj [("emotion"%string, JObj [("toString"%string, JNum (Fin 1))]);
        ("confidence"%string, json_number (1 # 2))].

Example roundtrip_neutral :
  lastEmotion (on_message int_number_to_string digits_string_to_number init
    (Some (JObj [("emotion"%string, JStr "neutral"); ("confidence"%string, JNum (Fin (1 # 2)))])))
  = "neutral (50.0%)"%string.
Proof. reflexivity. Qed.

(** The double nearest 0.0075 lies below it, but its product by 100 rounds
    to 0.75 exactly, printed ["0.8"]; 0.0015 times 100 rounds to the double
    nearest 0.15, which lies below it and prints ["0.1"]. *)
Example label_rounding :
  emotion_label int_number_to_string digits_string_to_number
    (JStr "sad") (json_number (75 # 10000)) = Ok "sad (0.8%)"%string /\
  emotion_label int_number_to_string digits_string_to_number
    (JStr "sad") (json_number (15 # 10000)) = Ok "sad (0.1%)"%string.
Proof. split; vm_compute; reflexivity. Qed.

Example arrays_joined :
  emotion_label int_number_to_string digits_string_to_number
    (JArr [JStr "a"; JNull; JArr [JNum (Fin 2); JUndef]]) (JArr [JStr "1"])
  = Ok "a,,2, (100.0%)"%string /\
  emotion_label int_number_to_string digits_string_to_number
    (JArr [JStr "a"; JObj [("toString"%string, JNull)]]) (JNum (Fin 1))
  = Exn "TypeError"%string.
Proof. split; vm_compute; reflexivity. Qed.

(** ** Region extraction *)

Lemma clamp_lower_bounds (cw ch : Z) (x y w h : Q) :
  let r := clamp cw ch x y w h in
  0 <= rx r /\ 0 <= ry r /\ 1 <= rw r /\ 1 <= rh r.
Proof. simpl. lia. Qed.

(** C1 (code_bug): the clamp does not bound the origin from above, so the
    region can overflow the frame.  On the spec's own input (640x480 frame,
    raw rectangle (-10, 500, 100, 50)) it yields (0, 500, 100, 1), with
    [y + h = 501 > 480]; and a box as wide as the frame yields
    [x = 640, w = 1], with [x + w = 641 > 640]. *)
Theorem clamp_overflows_frame :
  clamp 640 480 (-10) 500 100 50 = {| rx := 0; ry := 500; rw := 100; rh := 1 |} /\
  480 < ry (clamp 640 480 (-10) 500 100 50) + rh (clamp 640 480 (-10) 500 100 50) /\
  extract_region 640 480 [full_width_box] = Some {| rx := 640; ry := 240; rw := 1; rh := 240 |}.
Proof. vm_compute. repeat split; reflexivity. Qed.

(** C2 (code_bug): the origin of the raw rectangle is computed from
    [box.width] / [box.height], so it always equals the size, and differs
    from [xMin * frameWidth, yMin * frameHeight]: for a box with
    [xMin = yMin = 0.25] and [width = height = 0.5] in a 640x480 frame the
    code uses (320, 240) where the spec asks for (160, 120). *)
Theorem raw_origin_from_size :
  (forall cw ch box,
      rawX (compute_raw cw ch box) = rawW (compute_raw cw ch box) /\
      rawY (compute_raw cw ch box) = rawH (compute_raw cw ch box)) /\
  (num_norm (rawX (compute_raw 640 480 face_box)), num_norm (rawY (compute_raw 640 480 face_box)))
    = (Fin (320 # 1), Fin (240 # 1)) /\
  (num_norm (fst (spec_raw_origin 640 480 face_box)), num_norm (snd (spec_raw_origin 640 480 face_box)))
    = (Fin (160 # 1), Fin (120 # 1)).
Proof.
  split.
  - intros cw ch box. split; reflexivity.
  - vm_compute. split; reflexivity.
Qed.

(** C9: after clamping [w >= 1] and [h >= 1], so the degenerate test of
    line 160 never fires: with at least one detection, the extractor yields
    "no region" exactly when a raw value is not finite. *)
Theorem degenerate_check_unreachable :
  (forall cw ch x y w h, degenerate (clamp cw ch x y w h) = false) /\
  (forall cw ch box rest,
      extract_region cw ch (box :: rest) = None <->
      forallb isFinite [rawX (compute_raw cw ch box); rawY (compute_raw cw ch box);
                        rawW (compute_raw cw ch box); rawH (compute_raw cw ch box)] = false).
Proof.
  assert (Hd : forall cw ch x y w h, degenerate (clamp cw ch x y w h) = false).
  { intros cw ch x y w h. unfold degenerate.
    destruct (clamp_lower_bounds cw ch x y w h) as (_ & _ & Hw & Hh).
    apply orb_false_iff. split; apply Z.leb_gt; lia. }
  split; [exact Hd |].
  intros cw ch box rest. unfold extract_region.
  destruct (compute_raw cw ch box) as [[] [] [] []]; simpl;
    try rewrite Hd; split; intro H; try discriminate; reflexivity.
Qed.

(** ** The connection state machine *)

(** Fields only [onopen] and [onclose] touch. *)
Definition same_retry (st st' : app) : Prop :=
  reconnectAttempt st' = reconnectAttempt st /\ scheduled st' = scheduled st.

Lemma connect_same_retry (st : app) : same_retry st (connectWebSocket st).
Proof. unfold same_retry, connectWebSocket. destruct (socket st) as [[]|]; split; reflexivity. Qed.

Lemma fire_timer_same_retry (st : app) : same_retry st (fire_timer st).
Proof.
  unfold fire_timer. destruct (timers st) as [|t rest]; [split; reflexivity |].
  destruct (connect_same_retry
    {| socket := socket st; reconnectAttempt := reconnectAttempt st; timers := rest;
       scheduled := scheduled st; links := links st; lastSendTime := lastSendTime st;
       sent := sent st; lastEmotion := lastEmotion st |}) as [H1 H2].
  split; [exact H1 | exact H2].
Qed.

Lemma on_results_same_retry (st : app) cw ch d now throws :
  same_retry st (on_results st cw ch d now throws).
Proof.
  unfold on_results. destruct (extract_region cw ch d); [| split; reflexivity].
  unfold send_frame. destruct (socket st) as [[]|] eqn:Hs; try (split; reflexivity).
  - destruct (now - lastSendTime st >=? sendInterval); [| split; reflexivity].
    destruct throws; simpl; [| split; reflexivity].
    unfold socket_close. rewrite Hs.
    apply (connect_same_retry (set_socket (Some CLOSING) st)).
  - apply connect_same_retry.
  - apply connect_same_retry.
Qed.

Lemma step_retry (st : app) (e : event) :
  is_open_event e = false ->
  (reconnectAttempt st <= maxReconnectAttempts)%nat ->
  reconnectAttempt (step st e)
    = Nat.min maxReconnectAttempts (reconnectAttempt st + if is_close_event e then 1 else 0) /\
  List.length (scheduled (step st e))
    = (List.length (scheduled st) + (reconnectAttempt (step st e) - reconnectAttempt st))%nat.
Proof.
  unfold maxReconnectAttempts. intros Ho Hle.
  assert (Hsame : forall st', same_retry st st' ->
    reconnectAttempt st' = Nat.min 5 (reconnectAttempt st + 0) /\
    List.length (scheduled st')
      = (List.length (scheduled st) + (reconnectAttempt st' - reconnectAttempt st))%nat).
  { intros st' [H1 H2]. rewrite H1, H2. lia. }
  assert (Hclose : forall s, reconnectAttempt s = reconnectAttempt st ->
            scheduled s = scheduled st ->
    reconnectAttempt (onclose_handler s) = Nat.min 5 (reconnectAttempt st + 1) /\
    List.length (scheduled (onclose_handler s))
      = (List.length (scheduled st)
         + (reconnectAttempt (onclose_handler s) - reconnectAttempt st))%nat).
  { intros s H1 H2. unfold onclose_handler, maxReconnectAttempts. rewrite H1.
    destruct (Nat.ltb_spec (reconnectAttempt st) 5);
      cbn [reconnectAttempt scheduled List.length]; rewrite ?H1, ?H2; lia. }
  destruct e; simpl in Ho |- *; try discriminate.
  - apply Hsame, connect_same_retry.
  - apply Hclose; reflexivity.
  - apply Hclose; reflexivity.
  - apply Hsame, fire_timer_same_retry.
  - apply Hsame, on_results_same_retry.
Qed.

(** C3: each closure below the retry bound schedules [connectWebSocket]
    after [min(1000 * 2^attempt, 10000)] ms; that delay is at most 10000 and
    does not decrease with the attempt number. *)
Theorem reconnect_backoff (attempt : nat) (Ha : (attempt < maxReconnectAttempts)%nat) :
  (forall st, reconnectAttempt st = attempt ->
     scheduled (onclose_handler st) = reconnect_delay attempt :: scheduled st /\
     timers (onclose_handler st) = timers st ++ [reconnect_delay attempt] /\
     reconnectAttempt (onclose_handler st) = S attempt) /\
  reconnect_delay attempt = Z.min (baseReconnectDelay * 2 ^ Z.of_nat attempt) 10000 /\
  reconnect_delay attempt <= 10000 /\
  (forall attempt', (attempt <= attempt')%nat ->
     reconnect_delay attempt <= reconnect_delay attempt').
Proof.
  split; [| split; [reflexivity | split]].
  - intros st Hst. unfold onclose_handler. rewrite Hst.
    apply Nat.ltb_lt in Ha. rewrite Ha. simpl. repeat split; reflexivity.
  - unfold reconnect_delay. lia.
  - intros attempt' Hle. unfold reconnect_delay, baseReconnectDelay.
    apply Z.min_le_compat_r. apply Z.mul_le_mono_nonneg_l; [lia |].
    apply Z.pow_le_mono_r; lia.
Qed.

Lemma reconnect_backoff_witness :
  (2 < maxReconnectAttempts)%nat /\ reconnect_delay 2 = 4000 /\
  scheduled (onclose_handler (set_attempt 2 init)) = [4000].
Proof.
  split; [unfold maxReconnectAttempts; lia |].
  destruct (reconnect_backoff 2 ltac:(unfold maxReconnectAttempts; lia)) as (Hst & _).
  destruct (Hst (set_attempt 2 init) eq_refl) as (Hs & _ & _).
  split; [reflexivity |]. rewrite Hs. reflexivity.
Defined.

(** C4, counterexample.  From a fresh start, after five closures with no
    open in between, a fifth reconnect (10000 ms) is still pending and,
    when it fires, opens a new link; after the sixth closure the counter
    stays at 5 and no timer is pending, yet the next detection with a face
    calls [connectWebSocket] from the dispatch path (lines 191-193) and
    opens another link. *)
Lemma failed_state_not_terminal :
  let s5 := run init five_closures in
  reconnectAttempt s5 = 5%nat /\ timers s5 = [10000] /\
  links (run s5 [ETimer]) = S (links s5) /\
  (let s6 := run s5 [ETimer; EClose] in
   reconnectAttempt s6 = 5%nat /\ timers s6 = [] /\ socket s6 = Some CLOSED /\
   links (run s6 [EDetect 640 480 [face_box] 60000 false]) = S (links s6)).
Proof. vm_compute. repeat split; reflexivity. Qed.

Lemma run_retry (evs : list event) : forall st,
  forallb (fun e => negb (is_open_event e)) evs = true ->
  (reconnectAttempt st <= maxReconnectAttempts)%nat ->
  reconnectAttempt (run st evs)
    = Nat.min maxReconnectAttempts (reconnectAttempt st + count_closes evs) /\
  List.length (scheduled (run st evs))
    = (List.length (scheduled st) + (reconnectAttempt (run st evs) - reconnectAttempt st))%nat.
Proof.
  unfold count_closes.
  induction evs as [| e evs IH]; intros st Hno Hle.
  - cbn [run fold_left filter List.length]. unfold maxReconnectAttempts in *. lia.
  - simpl in Hno. apply andb_true_iff in Hno as [He Hno]. apply negb_true_iff in He.
    destruct (step_retry st e He Hle) as [H1 H2].
    assert (Hle' : (reconnectAttempt (step st e) <= maxReconnectAttempts)%nat).
    { rewrite H1. apply Nat.le_min_l. }
    destruct (IH (step st e) Hno Hle') as [IH1 IH2].
    change (run st (e :: evs)) with (run (step st e) evs).
    rewrite IH1, IH2, H2. rewrite IH1, H1. unfold maxReconnectAttempts in *.
    cbn [filter]. destruct (is_close_event e); cbn [List.length]; lia.
Qed.

(** C4, amended: [onclose] schedules a reconnect only while the counter is
    below [maxReconnectAttempts] (5), and only [onopen] resets it.  With no
    open in between, after [k] closures the counter is [min 5 (a + k)] and
    exactly that many more reconnects have been scheduled, so once five are
    scheduled no closure schedules another.  The state is not terminal: a
    detection that yields a region while the socket is closed (or absent)
    calls [connectWebSocket], which opens a new link. *)
Theorem reconnect_budget (st : app) (evs : list event)
    (Hno : forallb (fun e => negb (is_open_event e)) evs = true)
    (Hle : (reconnectAttempt st <= maxReconnectAttempts)%nat) :
  reconnectAttempt (run st evs)
    = Nat.min maxReconnectAttempts (reconnectAttempt st + count_closes evs) /\
  List.length (scheduled (run st evs))
    = (List.length (scheduled st) + (reconnectAttempt (run st evs) - reconnectAttempt st))%nat /\
  (forall cw ch d now throws,
     (socket st = None \/ socket st = Some CLOSED) ->
     extract_region cw ch d <> None ->
     links (on_results st cw ch d now throws) = S (links st)).
Proof.
  destruct (run_retry evs st Hno Hle) as [H1 H2].
  split; [exact H1 | split; [exact H2 |]].
  intros cw ch d now throws Hs Hr. unfold on_results.
  destruct (extract_region cw ch d) as [r |]; [| contradiction].
  unfold send_frame, connectWebSocket.
  destruct Hs as [Hs | Hs]; rewrite Hs; reflexivity.
Qed.

Lemma reconnect_budget_witness :
  forallb (fun e => negb (is_open_event e)) five_closures = true /\
  (reconnectAttempt init <= maxReconnectAttempts)%nat /\
  reconnectAttempt (run init five_closures) = 5%nat /\
  List.length (scheduled (run init five_closures)) = 5%nat.
Proof.
  assert (Hno : forallb (fun e => negb (is_open_event e)) five_closures = true) by reflexivity.
  assert (Hle : (reconnectAttempt init <= maxReconnectAttempts)%nat)
    by (unfold maxReconnectAttempts; simpl; lia).
  destruct (reconnect_budget init five_closures Hno Hle) as (H1 & H2 & _).
  split; [exact Hno | split; [exact Hle |]].
  rewrite H2, H1. split; reflexivity.
Defined.

(** C6: [connectWebSocket] on a connecting or open socket returns at
    line 19: no new link, the retry counter unchanged. *)
Theorem connect_idempotent (st : app)
    (H : socket st = Some CONNECTING \/ socket st = Some OPEN) :
  connectWebSocket st = st /\ links (connectWebSocket st) = links st /\
  reconnectAttempt (connectWebSocket st) = reconnectAttempt st.
Proof.
  assert (E : connectWebSocket st = st).
  { unfold connectWebSocket. destruct H as [H | H]; rewrite H; reflexivity. }
  rewrite E. repeat split; reflexivity.
Qed.

Lemma connect_idempotent_witness :
  let st := on_open (connectWebSocket init) in
  (socket st = Some CONNECTING \/ socket st = Some OPEN) /\ connectWebSocket st = st.
Proof.
  simpl. assert (H : socket (on_open (connectWebSocket init)) = Some CONNECTING \/
                     socket (on_open (connectWebSocket init)) = Some OPEN) by (right; reflexivity).
  split; [exact H |].
  exact (proj1 (connect_idempotent (on_open (connectWebSocket init)) H)).
Defined.

(** ** The rate gate *)

(** Consecutive timestamps of a newest-first log are [sendInterval] apart. *)
Fixpoint spaced (l : list Z) : Prop :=
  match l with
  | a :: ((b :: _) as t) => sendInterval <= a - b /\ spaced t
  | _ => True
  end.

(** The log of sent frames is spaced and its newest entry is [lastSendTime]. *)
Definition gate_inv (st : app) : Prop :=
  spaced (sent st) /\
  match sent st with [] => True | t :: _ => t = lastSendTime st end.

Definition same_sends (st st' : app) : Prop :=
  sent st' = sent st /\ lastSendTime st' = lastSendTime st.

Lemma same_sends_inv (st st' : app) : same_sends st st' -> gate_inv st -> gate_inv st'.
Proof. intros [H1 H2] [I1 I2]. unfold gate_inv. rewrite H1, H2. split; assumption. Qed.

Lemma connect_same_sends (st : app) : same_sends st (connectWebSocket st).
Proof. unfold same_sends, connectWebSocket. destruct (socket st) as [[]|]; split; reflexivity. Qed.

Lemma on_results_inv (st : app) cw ch d now throws :
  gate_inv st -> gate_inv (on_results st cw ch d now throws).
Proof.
  intros Hi. unfold on_results. destruct (extract_region cw ch d); [| exact Hi].
  unfold send_frame. destruct (socket st) as [[]|] eqn:Hs; try exact Hi.
  - destruct (Z.geb_spec (now - lastSendTime st) sendInterval) as [Hge | Hlt]; [| exact Hi].
    destruct throws; simpl.
    + apply (same_sends_inv st); [| exact Hi].
      unfold socket_close. rewrite Hs.
      apply (connect_same_sends (set_socket (Some CLOSING) st)).
    + destruct Hi as [I1 I2]. unfold gate_inv. simpl.
      destruct (sent st) as [| t rest]; simpl; [split; [exact I | reflexivity] |].
      subst t. split; [split; [lia | exact I1] | reflexivity].
  - apply (same_sends_inv st); [apply connect_same_sends | exact Hi].
  - apply (same_sends_inv st); [apply connect_same_sends | exact Hi].
Qed.

Lemma step_inv (st : app) (e : event) : gate_inv st -> gate_inv (step st e).
Proof.
  intros Hi. destruct e; simpl.
  - apply (same_sends_inv st); [apply connect_same_sends | exact Hi].
  - exact Hi.
  - unfold onclose_handler. destruct (_ <? _)%nat; exact Hi.
  - unfold onclose_handler. destruct (_ <? _)%nat; exact Hi.
  - unfold fire_timer. destruct (timers st); [exact Hi |].
    eapply same_sends_inv; [apply connect_same_sends | exact Hi].
  - apply on_results_inv, Hi.
Qed.

Lemma run_inv (evs : list event) : forall st, gate_inv st -> gate_inv (run st evs).
Proof.
  induction evs as [| e evs IH]; intros st Hi; [exact Hi |].
  apply IH, step_inv, Hi.
Qed.

(** C5: on an open socket whose [send] succeeds, the gate of line 177 sends
    exactly when [now - lastSendTime >= sendInterval], and then sets
    [lastSendTime] to [now]; otherwise nothing changes.  Over every trace
    from the start (any timestamps, not only non-decreasing ones), two
    consecutive sent frames are at least [sendInterval] ms apart. *)
Theorem rate_gate (st : app) (now : Z) (Hopen : socket st = Some OPEN) :
  (exists st' out,
     send_frame st now false = Ok (st', out) /\
     (out = Sent <-> sendInterval <= now - lastSendTime st) /\
     lastSendTime st' = (if now - lastSendTime st >=? sendInterval then now else lastSendTime st) /\
     (out <> Sent -> st' = st)) /\
  (forall evs, spaced (sent (run init evs))).
Proof.
  split.
  - unfold send_frame. rewrite Hopen.
    destruct (Z.geb_spec (now - lastSendTime st) sendInterval) as [Hge | Hlt]; simpl.
    + eexists; exists Sent. split; [reflexivity |].
      split; [split; [intros _; lia | reflexivity] |].
      split; [reflexivity | intros C; contradiction C; reflexivity].
    + exists st, Throttled. split; [reflexivity |].
      split; [split; [discriminate | lia] |].
      split; [reflexivity | reflexivity].
  - intros evs. apply (run_inv evs init). split; exact I.
Qed.

Lemma rate_gate_witness :
  let st := on_open (connectWebSocket init) in
  socket st = Some OPEN /\
  exists st', send_frame st 250 false = Ok (st', Sent) /\ lastSendTime st' = 250.
Proof.
  simpl. assert (H : socket (on_open (connectWebSocket init)) = Some OPEN) by reflexivity.
  split; [exact H |].
  destruct (rate_gate (on_open (connectWebSocket init)) 250 H)
    as [(st' & out & Hf & Hiff & Hl & _) _].
  assert (Hout : out = Sent) by (apply Hiff; vm_compute; discriminate).
  subst out. exists st'. split; [exact Hf | rewrite Hl; reflexivity].
Defined.

(** C7: a send attempted on a socket that is not open is rejected ([NotOpen])
    without an exception escaping, and leaves [lastSendTime] and the log of
    sent frames unchanged, whether or not it calls [connectWebSocket]. *)
Theorem send_when_not_open (st : app) (now : Z) (throws : bool)
    (H : socket st <> Some OPEN) :
  (exists st', send_frame st now throws = Ok (st', NotOpen) /\
     lastSendTime st' = lastSendTime st /\ sent st' = sent st) /\
  (forall cw ch d,
     lastSendTime (on_results st cw ch d now throws) = lastSendTime st /\
     sent (on_results st cw ch d now throws) = sent st).
Proof.
  assert (Hs : exists st', send_frame st now throws = Ok (st', NotOpen) /\
     lastSendTime st' = lastSendTime st /\ sent st' = sent st).
  { unfold send_frame.
    destruct (socket st) as [[]|] eqn:E; try (contradiction H; reflexivity);
      try (exists st; split; [reflexivity | split; reflexivity]);
      exists (connectWebSocket st); split; try reflexivity;
      destruct (connect_same_sends st) as [S1 S2]; split; assumption. }
  split; [exact Hs |].
  intros cw ch d. destruct Hs as (st' & Hf & H1 & H2).
  unfold on_results. destruct (extract_region cw ch d); [| split; reflexivity].
  rewrite Hf. split; assumption.
Qed.

Lemma send_when_not_open_witness :
  socket init <> Some OPEN /\
  exists st', send_frame init 1000 true = Ok (st', NotOpen) /\ lastSendTime st' = 0.
Proof.
  assert (H : socket init <> Some OPEN) by discriminate.
  split; [exact H |].
  destruct (send_when_not_open init 1000 true H) as [(st' & Hf & Hl & _) _].
  exists st'. split; [exact Hf | exact Hl].
Defined.

(** ** The inbound handler *)

(** C8: a message [JSON.parse] rejects is dropped by the [catch] of
    line 66: the whole state (display label and connection) is unchanged. *)
Theorem malformed_message_ignored
    (number_to_string : Q -> string) (string_to_number : string -> jsnum) (st : app) :
  on_message number_to_string string_to_number st None = st.
Proof. reflexivity. Qed.

Lemma get_prop_field (v : jval) (k : string) :
  v <> JNull -> v <> JUndef -> get_prop v k = Ok (field v k).
Proof.
  intros H1 H2. unfold field.
  destruct v; try (contradiction H1; reflexivity); try (contradiction H2; reflexivity);
    try reflexivity.
  simpl. destruct (lookup_member members k); reflexivity.
Qed.

(** ToString raises exactly on the values [convertible] rejects. *)
Lemma to_string_total (number_to_string : Q -> string) (v : jval) :
  match to_string number_to_string v with
  | Ok _ => convertible v = true
  | Exn _ => convertible v = false
  end.
Proof.
  induction v as [| | b | n | s | l Hl | ms] using jval_ind'; try reflexivity.
  - simpl. induction Hl as [| x t Px Ft IH]; [reflexivity |].
    assert (Hx : match (match x with JUndef | JNull => Ok ""%string
                                     | _ => to_string number_to_string x end) with
                 | Ok _ => convertible x = true
                 | Exn _ => convertible x = false
                 end) by (destruct x; first [reflexivity | exact Px]).
    simpl.
    destruct (match x with JUndef | JNull => Ok ""%string
                      | _ => to_string number_to_string x end) as [ex | m];
      rewrite Hx; [| reflexivity].
    destruct t as [| y t']; [reflexivity |].
    match goal with IH : match ?J with Ok _ => _ | Exn _ => _ end |- _ =>
      destruct J end; exact IH.
  - simpl. unfold has_own_toString. destruct (lookup_member ms "toString"); reflexivity.
Qed.

Lemma to_number_total (number_to_string : Q -> string) (string_to_number : string -> jsnum)
    (v : jval) :
  match to_number number_to_string string_to_number v with
  | Ok _ => convertible v = true
  | Exn _ => convertible v = false
  end.
Proof.
  destruct v as [| | b | n | s | l | ms]; try reflexivity.
  - pose proof (to_string_total number_to_string (JArr l)) as H. unfold to_number.
    destruct (to_string number_to_string (JArr l)); exact H.
  - simpl. unfold has_own_toString. destruct (lookup_member ms "toString"); reflexivity.
Qed.

Lemma emotion_label_ok (number_to_string : Q -> string) (string_to_number : string -> jsnum)
    (e c : jval) :
  (exists s, emotion_label number_to_string string_to_number e c = Ok s) <->
  convertible e && convertible c = true.
Proof.
  pose proof (to_string_total number_to_string e) as He.
  pose proof (to_number_total number_to_string string_to_number c) as Hc.
  unfold emotion_label.
  destruct (to_string number_to_string e) as [se | me]; rewrite He; simpl.
  - destruct (to_number number_to_string string_to_number c) as [nc | mc]; rewrite Hc.
    + split; [reflexivity | intros _; eexists; reflexivity].
    + split; [intros [s Hs]; discriminate Hs | discriminate].
  - split; [intros [s Hs]; discriminate Hs | discriminate].
Qed.

(** A label, once computed, has the shape [_ (_%)] and is never empty. *)
Lemma emotion_label_shape (number_to_string : Q -> string) (string_to_number : string -> jsnum)
    (e c : jval) (s : string) :
  emotion_label number_to_string string_to_number e c = Ok s ->
  (exists a b, s = (a ++ " (" ++ b ++ "%)")%string) /\ s <> ""%string.
Proof.
  unfold emotion_label.
  destruct (to_string number_to_string e) as [se |]; [| discriminate].
  destruct (to_number number_to_string string_to_number c) as [nc |]; [| discriminate].
  intros H. injection H as <-. split; [eexists; eexists; reflexivity |].
  destruct se; discriminate.
Qed.

(** C10, counterexample: [JSON.parse("null")] succeeds and [null] has no
    [error] member, yet [data.error] raises a [TypeError] that the [catch]
    of line 66 swallows: the label is left as it was (here the initial
    [""]), not overwritten with a string of the form [_ (_%)]. *)
Lemma null_message_not_displayed :
  own_field JNull "error" = None /\
  (forall number_to_string string_to_number st,
     on_message number_to_string string_to_number st (Some JNull) = st) /\
  lastEmotion init = ""%string /\
  ~ (exists a b, lastEmotion init = (a ++ " (" ++ b ++ "%)")%string).
Proof.
  split; [reflexivity | split; [intros; reflexivity | split; [reflexivity |]]].
  intros (a & b & H). destruct a; discriminate H.
Qed.

(** C10, amended: a parsed message other than [null] whose [error] member
    is absent or falsy is displayed exactly when its [emotion] and
    [confidence] members convert to string and number without raising,
    which is when neither holds an object with an own [toString] member (at
    the top or inside an array).  It then overwrites the label with
    [`${emotion} (${(confidence * 100).toFixed(1)}%)`], whatever else those
    members hold ([{}] gives ["undefined (NaN%)"]); otherwise the [catch]
    swallows the [TypeError] and the state is unchanged, as it is for a
    message that parses to [null]. *)
Theorem label_overwritten
    (number_to_string : Q -> string) (string_to_number : string -> jsnum)
    (st : app) (data : jval)
    (Hnull : data <> JNull) (Hundef : data <> JUndef)
    (Herr : truthy (field data "error") = false) :
  let label := emotion_label number_to_string string_to_number
                 (field data "emotion") (field data "confidence") in
  (forall s, label = Ok s ->
     on_message number_to_string string_to_number st (Some data) = set_lastEmotion s st) /\
  (forall m, label = Exn m ->
     on_message number_to_string string_to_number st (Some data) = st) /\
  ((exists s, label = Ok s) <->
     convertible (field data "emotion") && convertible (field data "confidence") = true) /\
  on_message number_to_string string_to_number st (Some JNull) = st /\
  lastEmotion (on_message number_to_string string_to_number st (Some (JObj [])))
    = "undefined (NaN%)"%string /\
  on_message number_to_string string_to_number st (Some happy_with_toString) = st.
Proof.
  cbv zeta.
  assert (Hm : on_message number_to_string string_to_number st (Some data)
               = match emotion_label number_to_string string_to_number
                         (field data "emotion") (field data "confidence") with
                 | Ok s => set_lastEmotion s st
                 | Exn _ => st
                 end).
  { unfold on_message. rewrite !get_prop_field by assumption. rewrite Herr. reflexivity. }
  split; [intros s Hs; rewrite Hm, Hs; reflexivity |].
  split; [intros m Hx; rewrite Hm, Hx; reflexivity |].
  split; [apply emotion_label_ok |].
  split; [reflexivity |]. split; reflexivity.
Qed.

Lemma label_overwritten_witness :
  let msg := JObj [("emotion"%string, JStr "happy"); ("confidence"%string, JStr "1")] in
  msg <> JNull /\ msg <> JUndef /\ truthy (field msg "error") = false /\
  lastEmotion (on_message int_number_to_string digits_string_to_number init (Some msg))
    = "happy (100.0%)"%string.
Proof.
  cbv zeta.
  assert (H1 : JObj [("emotion"%string, JStr "happy"); ("confidence"%string, JStr "1")]
               <> JNull) by discriminate.
  assert (H2 : JObj [("emotion"%string, JStr "happy"); ("confidence"%string, JStr "1")]
               <> JUndef) by discriminate.
  assert (H3 : truthy (field (JObj [("emotion"%string, JStr "happy");
                                    ("confidence"%string, JStr "1")]) "error") = false)
    by reflexivity.
  split; [exact H1 | split; [exact H2 | split; [exact H3 |]]].
  destruct (label_overwritten int_number_to_string digits_string_to_number init _ H1 H2 H3)
    as [E _].
  rewrite (E "happy (100.0%)"%string) by (vm_compute; reflexivity).
  reflexivity.
Defined.

(** ** Further properties of the client *)

Lemma step_attempt_le (st : app) (e : event) :
  (reconnectAttempt st <= maxReconnectAttempts)%nat ->
  (reconnectAttempt (step st e) <= maxReconnectAttempts)%nat.
Proof.
  intros Hle. destruct (is_open_event e) eqn:Ho.
  - destruct e; try discriminate. simpl. unfold maxReconnectAttempts. lia.
  - destruct (step_retry st e Ho Hle) as [H1 _]. rewrite H1. apply Nat.le_min_l.
Qed.

(** The retry counter of [connectWebSocket]'s [onclose] never exceeds
    [maxReconnectAttempts] (5), whatever happens. *)
Theorem attempt_bounded (evs : list event) :
  (reconnectAttempt (run init evs) <= maxReconnectAttempts)%nat.
Proof.
  assert (H : forall st, (reconnectAttempt st <= maxReconnectAttempts)%nat ->
                (reconnectAttempt (run st evs) <= maxReconnectAttempts)%nat).
  { induction evs as [| e evs IH]; intros st Hle; [exact Hle |].
    apply IH, step_attempt_le, Hle. }
  apply H. unfold maxReconnectAttempts. simpl. lia.
Qed.

Definition delay_ok (d : Z) : Prop := 1000 <= d <= 10000.

Definition delays_ok (st : app) : Prop :=
  Forall delay_ok (timers st) /\ Forall delay_ok (scheduled st).

Lemma reconnect_delay_ok (a : nat) : delay_ok (reconnect_delay a).
Proof.
  unfold delay_ok, reconnect_delay, baseReconnectDelay.
  assert (0 < 2 ^ Z.of_nat a) by (apply Z.pow_pos_nonneg; lia).
  lia.
Qed.

Lemma connect_same_timers (st : app) :
  timers (connectWebSocket st) = timers st /\ scheduled (connectWebSocket st) = scheduled st.
Proof. unfold connectWebSocket. destruct (socket st) as [[]|]; split; reflexivity. Qed.

Lemma on_results_same_timers (st : app) cw ch d now throws :
  timers (on_results st cw ch d now throws) = timers st /\
  scheduled (on_results st cw ch d now throws) = scheduled st.
Proof.
  unfold on_results. destruct (extract_region cw ch d); [| split; reflexivity].
  unfold send_frame. destruct (socket st) as [[]|] eqn:Hs; try (split; reflexivity).
  - destruct (now - lastSendTime st >=? sendInterval); [| split; reflexivity].
    destruct throws; simpl; [| split; reflexivity].
    unfold socket_close. rewrite Hs.
    apply (connect_same_timers (set_socket (Some CLOSING) st)).
  - apply connect_same_timers.
  - apply connect_same_timers.
Qed.

Lemma step_delays_ok (st : app) (e : event) : delays_ok st -> delays_ok (step st e).
Proof.
  intros [Ht Hs].
  assert (Hc : forall s, timers s = timers st -> scheduled s = scheduled st ->
                 delays_ok (onclose_handler s)).
  { intros s E1 E2. unfold onclose_handler.
    destruct (_ <? _)%nat; unfold delays_ok; simpl; rewrite E1, E2;
      [| split; assumption].
    split; [apply Forall_app; split; [exact Ht | constructor; [apply reconnect_delay_ok | constructor]] |].
    constructor; [apply reconnect_delay_ok | exact Hs]. }
  destruct e; simpl.
  - destruct (connect_same_timers st) as [E1 E2]. split; [rewrite E1 | rewrite E2]; assumption.
  - split; assumption.
  - apply Hc; reflexivity.
  - apply Hc; reflexivity.
  - unfold fire_timer. destruct (timers st) as [| t rest] eqn:Et; [split; [rewrite Et |]; assumption |].
    match goal with |- delays_ok (connectWebSocket ?s) =>
      destruct (connect_same_timers s) as [E1 E2] end.
    unfold delays_ok. rewrite E1, E2. simpl.
    split; [inversion Ht; assumption | exact Hs].
  - destruct (on_results_same_timers st canvas_width canvas_height detections now throws) as [E1 E2].
    split; [rewrite E1 | rewrite E2]; assumption.
Qed.

(** Every reconnect delay ever scheduled, and every one still pending, lies
    between 1000 and 10000 ms. *)
Theorem delays_in_range (evs : list event) :
  Forall delay_ok (timers (run init evs)) /\ Forall delay_ok (scheduled (run init evs)).
Proof.
  assert (H : forall st, delays_ok st -> delays_ok (run st evs)).
  { induction evs as [| e evs IH]; intros st Hst; [exact Hst |].
    apply IH, step_delays_ok, Hst. }
  apply H. split; constructor.
Qed.

Lemma onclose_schedule (s : app) (k : nat) :
  rev (map reconnect_delay (seq (reconnectAttempt (onclose_handler s))
         (Nat.min k (5 - reconnectAttempt (onclose_handler s)))))
    ++ scheduled (onclose_handler s)
  = rev (map reconnect_delay (seq (reconnectAttempt s) (Nat.min (S k) (5 - reconnectAttempt s))))
    ++ scheduled s.
Proof.
  unfold onclose_handler, maxReconnectAttempts.
  destruct (Nat.ltb_spec (reconnectAttempt s) 5) as [H | H].
  - cbn [reconnectAttempt scheduled].
    replace (Nat.min (S k) (5 - reconnectAttempt s))
      with (S (Nat.min k (5 - S (reconnectAttempt s)))) by lia.
    cbn [seq map rev]. rewrite <- app_assoc. reflexivity.
  - replace (5 - reconnectAttempt s)%nat with 0%nat by lia.
    rewrite !Nat.min_0_r. reflexivity.
Qed.

(** With no open in between, the closures of a trace schedule the delays
    [reconnect_delay a], [reconnect_delay (a + 1)], ... from the current
    counter [a], until the counter reaches 5. *)
Lemma run_schedule (evs : list event) : forall st,
  forallb (fun e => negb (is_open_event e)) evs = true ->
  scheduled (run st evs)
    = rev (map reconnect_delay
             (seq (reconnectAttempt st) (Nat.min (count_closes evs) (5 - reconnectAttempt st))))
      ++ scheduled st.
Proof.
  unfold count_closes.
  induction evs as [| e evs IH]; intros st Hno; [reflexivity |].
  simpl in Hno. apply andb_true_iff in Hno as [He Hno].
  change (run st (e :: evs)) with (run (step st e) evs). rewrite (IH _ Hno).
  destruct e; simpl in He; try discriminate; cbn [filter is_close_event List.length step].
  - destruct (connect_same_retry st) as [H1 H2]. rewrite H1, H2. reflexivity.
  - exact (onclose_schedule (set_socket (Some CLOSED) st) _).
  - exact (onclose_schedule st _).
  - destruct (fire_timer_same_retry st) as [H1 H2]. rewrite H1, H2. reflexivity.
  - destruct (on_results_same_retry st canvas_width canvas_height detections now throws)
      as [H1 H2].
    rewrite H1, H2. reflexivity.
Qed.

(** A successful open restores the whole retry budget: along any trace
    with no further open, whatever else happens (timers firing, detections,
    stale closures), the closures schedule reconnects after 1, 2, 4, 8 and
    10 s, in this order, and every later closure schedules none. *)
Theorem open_restores_budget (st : app) (evs : list event)
    (Hno : forallb (fun e => negb (is_open_event e)) evs = true) :
  scheduled (run (on_open st) evs)
    = rev (firstn (count_closes evs) backoff_delays) ++ scheduled st.
Proof.
  rewrite (run_schedule evs (on_open st) Hno).
  change (reconnectAttempt (on_open st)) with 0%nat.
  change (scheduled (on_open st)) with (scheduled st).
  destruct (count_closes evs) as [|[|[|[|[|[|k]]]]]]; reflexivity.
Qed.

Lemma open_restores_budget_witness :
  forallb (fun e => negb (is_open_event e)) six_closures_after_open = true /\
  scheduled (run (on_open init) six_closures_after_open) = [10000; 8000; 4000; 2000; 1000].
Proof.
  assert (H : forallb (fun e => negb (is_open_event e)) six_closures_after_open = true)
    by reflexivity.
  split; [exact H |].
  rewrite (open_restores_budget init six_closures_after_open H). reflexivity.
Defined.

(** Case split of one detection cycle over every branch of lines 134-195. *)
Ltac results_cases st cw ch d now :=
  unfold on_results, send_frame;
  let R := fresh "R" in let E := fresh "E" in
  destruct (extract_region cw ch d) as [? |] eqn:R;
  [ destruct (socket st) as [[]|] eqn:E;
    [ | destruct (Z.geb_spec (now - lastSendTime st) sendInterval) | | | ]
  | ].

Lemma cons_neq {A : Type} (x : A) (l : list A) : x :: l <> l.
Proof. intros H. apply (f_equal (@List.length A)) in H. simpl in H. lia. Qed.

(** A detection cycle leaves the whole state unchanged exactly when it
    yields no region, or the socket is connecting or closing, or the socket
    is open and the last send is less than [sendInterval] ago (the frame is
    dropped, not queued). *)
Theorem detection_noop_iff (st : app) cw ch d now throws :
  on_results st cw ch d now throws = st <->
  extract_region cw ch d = None \/ socket st = Some CONNECTING \/
  socket st = Some CLOSING \/ (socket st = Some OPEN /\ now - lastSendTime st < sendInterval).
Proof.
  results_cases st cw ch d now; simpl.
  - split; [intros _; auto | intros _; reflexivity].
  - split; [| intros [A | [A | [A | [_ A]]]]; try discriminate; lia].
    destruct throws; simpl; intros Heq.
    + apply (f_equal links) in Heq. unfold socket_close, connectWebSocket in Heq.
      rewrite E in Heq. simpl in Heq. lia.
    + apply (f_equal sent) in Heq. simpl in Heq. exfalso. exact (cons_neq _ _ Heq).
  - split; [intros _; right; right; right; split; [reflexivity | lia] | intros _; reflexivity].
  - split; [intros _; auto | intros _; reflexivity].
  - split; [| intros [A | [A | [A | [A _]]]]; discriminate].
    intros Heq. apply (f_equal links) in Heq. unfold connectWebSocket in Heq.
    rewrite E in Heq. simpl in Heq. lia.
  - split; [| intros [A | [A | [A | [A _]]]]; discriminate].
    intros Heq. apply (f_equal links) in Heq. unfold connectWebSocket in Heq.
    rewrite E in Heq. simpl in Heq. lia.
  - split; [intros _; auto | intros _; reflexivity].
Qed.

(** A frame is sent only by a cycle that found a region on an open socket,
    passed the gate and met no exception; the send then records [now] as
    [lastSendTime]. *)
Theorem send_requires_open_gate (st : app) cw ch d now throws
    (Hchg : sent (on_results st cw ch d now throws) <> sent st) :
  extract_region cw ch d <> None /\ socket st = Some OPEN /\
  sendInterval <= now - lastSendTime st /\ throws = false /\
  sent (on_results st cw ch d now throws) = now :: sent st /\
  lastSendTime (on_results st cw ch d now throws) = now.
Proof.
  revert Hchg. results_cases st cw ch d now; simpl; intros Hchg;
    try (contradiction Hchg; reflexivity).
  - destruct throws; simpl in Hchg |- *.
    + unfold socket_close, connectWebSocket in Hchg. rewrite E in Hchg.
      contradiction Hchg; reflexivity.
    + repeat split; try discriminate; auto.
  - unfold connectWebSocket in Hchg. rewrite E in Hchg. contradiction Hchg; reflexivity.
  - unfold connectWebSocket in Hchg. rewrite E in Hchg. contradiction Hchg; reflexivity.
Qed.

Lemma send_requires_open_gate_witness :
  let st := on_open (connectWebSocket init) in
  sent (on_results st 640 480 [face_box] 500 false) <> sent st /\
  lastSendTime (on_results st 640 480 [face_box] 500 false) = 500.
Proof.
  cbv zeta.
  assert (H : sent (on_results (on_open (connectWebSocket init)) 640 480 [face_box] 500 false)
              <> sent (on_open (connectWebSocket init))) by (vm_compute; discriminate).
  split; [exact H |].
  exact (proj2 (proj2 (proj2 (proj2 (proj2 (send_requires_open_gate _ _ _ _ _ _ H)))))).
Defined.

(** [lastSendTime] only moves forward, and then by at least [sendInterval]:
    no event leaves it between its old value and [sendInterval] later. *)
Theorem lastSendTime_forward (st : app) (e : event) :
  lastSendTime (step st e) = lastSendTime st \/
  lastSendTime st + sendInterval <= lastSendTime (step st e).
Proof.
  destruct e; simpl; try (left; reflexivity).
  - left. apply (connect_same_sends st).
  - left. unfold onclose_handler. destruct (_ <? _)%nat; reflexivity.
  - left. unfold onclose_handler. destruct (_ <? _)%nat; reflexivity.
  - left. unfold fire_timer. destruct (timers st); [reflexivity |].
    unfold connectWebSocket. simpl. destruct (socket st) as [[]|]; reflexivity.
  - results_cases st canvas_width canvas_height detections now; simpl; try (left; reflexivity).
    + destruct throws; simpl.
      * left. unfold socket_close, connectWebSocket. rewrite E. reflexivity.
      * right. lia.
    + left. apply (connect_same_sends st).
    + left. apply (connect_same_sends st).
Qed.

Lemma set_lastEmotion_same (st : app) : set_lastEmotion (lastEmotion st) st = st.
Proof. destruct st; reflexivity. Qed.

(** An inbound message, whatever it holds, changes at most the label: the
    connection, the retry counter, the timers and the rate gate are
    untouched. *)
Theorem message_touches_only_label
    (number_to_string : Q -> string) (string_to_number : string -> jsnum)
    (st : app) (m : option jval) :
  on_message number_to_string string_to_number st m
    = set_lastEmotion (lastEmotion (on_message number_to_string string_to_number st m)) st.
Proof.
  unfold on_message.
  destruct m as [data |]; [| symmetry; apply set_lastEmotion_same].
  destruct (get_prop data "error") as [err |]; [| symmetry; apply set_lastEmotion_same].
  destruct (truthy err); [symmetry; apply set_lastEmotion_same |].
  destruct (get_prop data "emotion"), (get_prop data "confidence");
    try (symmetry; apply set_lastEmotion_same).
  destruct (emotion_label _ _ _ _); [reflexivity | symmetry; apply set_lastEmotion_same].
Qed.

Lemma step_keeps_label (st : app) (e : event) : lastEmotion (step st e) = lastEmotion st.
Proof.
  destruct e; simpl; try reflexivity.
  - unfold connectWebSocket. destruct (socket st) as [[]|]; reflexivity.
  - unfold onclose_handler. destruct (_ <? _)%nat; reflexivity.
  - unfold onclose_handler. destruct (_ <? _)%nat; reflexivity.
  - unfold fire_timer. destruct (timers st); [reflexivity |].
    unfold connectWebSocket. simpl. destruct (socket st) as [[]|]; reflexivity.
  - results_cases st canvas_width canvas_height detections now; simpl; try reflexivity.
    + destruct throws; simpl; [| reflexivity].
      unfold socket_close, connectWebSocket. rewrite E. reflexivity.
    + unfold connectWebSocket. rewrite E. reflexivity.
    + unfold connectWebSocket. rewrite E. reflexivity.
Qed.

Lemma run_keeps_label (evs : list event) : forall st, lastEmotion (run st evs) = lastEmotion st.
Proof.
  induction evs as [| e evs IH]; intros st; [reflexivity |].
  change (run st (e :: evs)) with (run (step st e) evs).
  rewrite IH. apply step_keeps_label.
Qed.

(** Before any classification no text is drawn over the frames, whatever
    the connection and detection events; once a message is displayed, its
    label (never empty) is drawn over every following frame, until the next
    message. *)
Theorem overlay_shows_label
    (number_to_string : Q -> string) (string_to_number : string -> jsnum)
    (st : app) (data : jval) (s : string)
    (Hnull : data <> JNull) (Hundef : data <> JUndef)
    (Herr : truthy (field data "error") = false)
    (Hlabel : emotion_label number_to_string string_to_number
                (field data "emotion") (field data "confidence") = Ok s) :
  (forall evs, overlay (run init evs) = None) /\
  (forall evs,
     overlay (run (on_message number_to_string string_to_number st (Some data)) evs) = Some s).
Proof.
  split; intros evs; unfold overlay; rewrite run_keeps_label; [reflexivity |].
  assert (Hm : on_message number_to_string string_to_number st (Some data) = set_lastEmotion s st).
  { unfold on_message. rewrite !get_prop_field by assumption. rewrite Herr, Hlabel.
    reflexivity. }
  rewrite Hm. cbn [lastEmotion set_lastEmotion].
  destruct (emotion_label_shape _ _ _ _ _ Hlabel) as [_ Hne].
  destruct (String.eqb_spec s ""); [contradiction | reflexivity].
Qed.

Lemma overlay_shows_label_witness :
  overlay (run (on_message int_number_to_string digits_string_to_number init (Some (JObj [])))
             five_closures)
    = Some "undefined (NaN%)"%string.
Proof.
  assert (H1 : JObj [] <> JNull) by discriminate.
  assert (H2 : JObj [] <> JUndef) by discriminate.
  assert (H3 : truthy (field (JObj []) "error") = false) by reflexivity.
  assert (H4 : emotion_label int_number_to_string digits_string_to_number
                 (field (JObj []) "emotion") (field (JObj []) "confidence")
               = Ok "undefined (NaN%)"%string) by reflexivity.
  exact (proj2 (overlay_shows_label int_number_to_string digits_string_to_number
                  init (JObj []) _ H1 H2 H3 H4) five_closures).
Defined.
